(** * A shallow embedding of src/bin/tools/jar.ts

    The module [jar] builds a jar archive: it walks [rootPath], turns every
    path into a [ZipSource] record (the [pathToRecord] transform), appends
    two synthesized records (MANIFEST.MF and pom.properties) and hands the
    record stream to the [zip] encoder.  The encoder and the directory walk
    are imported modules; the claims checked here are about the adapter,
    the synthesized metadata and the command-line entry point.

    Strings are modelled as Rocq [string] (8-bit characters); JavaScript
    strings restricted to that range behave the same for every operation
    used here. *)

From Stdlib Require Import Ascii String.
From stdpp Require Import base list gmap strings.

(** stdpp's [+:+] is [String.append]; let [simpl] unfold it on a known
    first argument. *)
#[local] Arguments String.append : simpl nomatch.

(* ------------------------------------------------------------------ *)
(** ** String helpers: [String.prototype.split] and [Array.prototype.join] *)

Module Str.

(** [s.split(c)] for a one-character separator (generalised to a
    predicate, which the path resolver also uses).  As in JavaScript,
    [""] splits to [[""]]. *)
Fixpoint split_by (is_sep : ascii -> bool) (s : string) : list string :=
  match s with
  | EmptyString => [EmptyString]
  | String x r =>
      let parts := split_by is_sep r in
      if is_sep x then EmptyString :: parts
      else match parts with
           | p :: ps => String x p :: ps
           | [] => [String x EmptyString]
           end
  end.

Definition split (c : ascii) (s : string) : list string :=
  split_by (Ascii.eqb c) s.

(** [arr.join(sep)] *)
Fixpoint join (sep : string) (l : list string) : string :=
  match l with
  | [] => EmptyString
  | [x] => x
  | x :: r => x +:+ sep +:+ join sep r
  end.

(** [s] does not contain the character [c]. *)
Fixpoint no_char (c : ascii) (s : string) : bool :=
  match s with
  | EmptyString => true
  | String x r => negb (Ascii.eqb x c) && no_char c r
  end.



End Str.

Definition nl : string := String "010"%char EmptyString.

(* ------------------------------------------------------------------ *)
(** ** Node's [path] module: [sep], and [resolve] and [relative] of [path.posix]

    [relative(from, to)] resolves both arguments against the working
    directory and returns the path from the first to the second: one
    [".."] for every segment of [from] past their common prefix, then the
    rest of [to], joined with [/].  It never throws.  This is Node's POSIX
    implementation ([path.posix]), which compares segments exactly.  The
    Windows implementation ([path.win32]: drive letters, UNC roots, case
    folding, per-drive working directories) is not modelled; see
    [Jar.Env]. *)
Module NodePath.

Inductive platform := Posix | Win32.

(** [path.sep] *)
Definition sep_char (p : platform) : ascii :=
  match p with Posix => "/"%char | Win32 => "\"%char end.

Definition sep (p : platform) : string := String (sep_char p) EmptyString.

(** [isPosixPathSeparator] *)
Definition is_sep (c : ascii) : bool := Ascii.eqb c "/"%char.

Definition is_absolute (s : string) : bool :=
  match s with
  | String c _ => is_sep c
  | EmptyString => false
  end.

(** [normalizeString]: drop empty and ["."] segments, let [".."] pop the
    previous segment (never above the root).  [acc] is reversed. *)
Fixpoint normalize_segs (acc : list string) (segs : list string) : list string :=
  match segs with
  | [] => rev acc
  | s :: r =>
      if String.eqb s "" || String.eqb s "." then normalize_segs acc r
      else if String.eqb s ".." then normalize_segs (tail acc) r
      else normalize_segs (s :: acc) r
  end.

(** [path.posix.resolve(s)], as the list of segments of the absolute
    result; [cwd] is [process.cwd()], already resolved. *)
Definition resolve (cwd : list string) (s : string) : list string :=
  normalize_segs (if is_absolute s then [] else rev cwd) (Str.split_by is_sep s).

(** Drop the common leading segments of two resolved paths. *)
Fixpoint strip_common (f t : list string) : list string * list string :=
  match f, t with
  | x :: f', y :: t' => if String.eqb x y then strip_common f' t' else (f, t)
  | _, _ => (f, t)
  end.

(** A segment of a resolved path: not empty, not ["."] or [".."], and
    free of [/]. *)
Definition clean_seg (s : string) : bool :=
  negb (String.eqb s "") && negb (String.eqb s ".") && negb (String.eqb s "..") &&
  Str.no_char "/"%char s.

(** [path.posix.relative(from, to)] *)
Definition relative (cwd : list string) (from to : string) : string :=
  let '(f, t) := strip_common (resolve cwd from) (resolve cwd to) in
  Str.join "/" (repeat ".." (length f) ++ t).

End NodePath.

(* ------------------------------------------------------------------ *)
(** ** [trimIndent] and [Buffer.from] *)

Module Text.

(** Characters matched by the regular-expression class [\s] in the 8-bit
    range: tab, line feed, vertical tab, form feed, carriage return,
    space and no-break space. *)
Definition is_ws (c : ascii) : bool :=
  let n := nat_of_ascii c in
  ((9 <=? n) && (n <=? 13)) || (n =? 32) || (n =? 160).

Definition is_nl (c : ascii) : bool := Ascii.eqb c "010"%char.

(** [s.replace(/(\n)\s+/g, "$1")], as a left-to-right scan.  [skip] is
    true right after a line feed, while the whitespace run that follows it
    is being deleted; a line feed inside that run belongs to the match and
    is deleted as well. *)
Fixpoint trim_go (skip : bool) (s : string) : string :=
  match s with
  | EmptyString => EmptyString
  | String c r =>
      if skip && is_ws c then trim_go true r
      else if is_nl c then String c (trim_go true r)
      else String c (trim_go false r)
  end.

(** Trim leading whitespace from every line *)
Definition trimIndent (s : string) : string := trim_go false s.

(** The scanner state after reading [s] from state [skip]. *)
Fixpoint trim_state (skip : bool) (s : string) : bool :=
  match s with
  | EmptyString => skip
  | String c r =>
      if skip && is_ws c then trim_state true r
      else trim_state (is_nl c) r
  end.

(** No line feed of [s] is followed by a whitespace character. *)
Fixpoint lf_ws_free (s : string) : bool :=
  match s with
  | EmptyString => true
  | String c t =>
      (if is_nl c then match t with String d _ => negb (is_ws d) | EmptyString => true end
       else true) && lf_ws_free t
  end.


(** The non-whitespace characters of [s], in order. *)
Fixpoint strip_ws (s : string) : string :=
  match s with
  | EmptyString => EmptyString
  | String c r => if is_ws c then strip_ws r else String c (strip_ws r)
  end.

(** [Buffer.from(s)]: the UTF-8 encoding of [s] (code units below 256),
    one byte per list element. *)
Definition utf8_char (c : ascii) : list Z :=
  let n := Z.of_nat (nat_of_ascii c) in
  if (n <? 128)%Z then [n]
  else [(192 + n / 64)%Z; (128 + n mod 64)%Z].

Fixpoint buffer_from (s : string) : list Z :=
  match s with
  | EmptyString => []
  | String c r => utf8_char c ++ buffer_from r
  end.

(** A UTF-8 decoder for the two-byte range, used to show that
    [buffer_from] loses no information. *)
Fixpoint utf8_decode (l : list Z) : option string :=
  match l with
  | [] => Some EmptyString
  | b :: r =>
      if (b <? 128)%Z then String (ascii_of_nat (Z.to_nat b)) <$> utf8_decode r
      else match r with
           | b2 :: r' =>
               String (ascii_of_nat (Z.to_nat ((b - 192) * 64 + (b2 - 128)))) <$> utf8_decode r'
           | [] => None
           end
  end.

End Text.

(* ------------------------------------------------------------------ *)
(** ** [jar]: the synthesized records and the [pathToRecord] transform *)

Module Jar.
Import Text.

Record JarArgs := {
  rootPath : string;
  targetPath : string;
  groupId : string;
  artifactId : string;
  version : string
}.

(** The objects pushed into the zip encoder: [{ filename, path }] for a
    file found by the walk (its contents are read by the encoder from
    [path]), [{ path, data }] for an in-memory record. *)
Inductive ZipSource :=
  | FileRecord (filename path : string)
  | BufferRecord (path : string) (data : list Z).

Definition zs_name (z : ZipSource) : string :=
  match z with FileRecord f _ => f | BufferRecord p _ => p end.

Definition zs_data (z : ZipSource) : option (list Z) :=
  match z with FileRecord _ _ => None | BufferRecord _ d => Some d end.

(** The 17 columns of indentation inside the template literals. *)
Definition indent : string := "                 ".

Definition manifest_text : string :=
  trimIndent
    ("Manifest-Version: 1.0" +:+ nl +:+
     indent +:+ "Archiver-Version: Plexus Archiver" +:+ nl +:+
     indent +:+ "Created-By: Keycloakify" +:+ nl +:+
     indent +:+ "Built-By: unknown" +:+ nl +:+
     indent +:+ "Build-Jdk: 19.0.0").

Definition manifest : ZipSource :=
  BufferRecord "META-INF/MANIFEST.MF" (buffer_from manifest_text).

(** [now] is [String(new Date())], the wall-clock date read when [jar] is
    called; [groupId], [artifactId] and [version] are the destructured
    arguments of [jar]. *)
Definition pomProps_text (groupId artifactId version now : string) : string :=
  trimIndent
    ("# Generated by keycloakify" +:+ nl +:+
     indent +:+ "# " +:+ now +:+ nl +:+
     indent +:+ "artifactId=" +:+ artifactId +:+ nl +:+
     indent +:+ "groupId=" +:+ groupId +:+ nl +:+
     indent +:+ "version=" +:+ version).

(** The template of [pomProps] from the line feed that ends the date line. *)
Definition pomProps_tail (groupId artifactId version : string) : string :=
  nl +:+ indent +:+ "artifactId=" +:+ artifactId +:+ nl +:+
  indent +:+ "groupId=" +:+ groupId +:+ nl +:+
  indent +:+ "version=" +:+ version.

Definition pomProps_path (groupId artifactId : string) : string :=
  "META-INF/maven/" +:+ groupId +:+ "/" +:+ artifactId +:+ "/pom.properties".

Definition pomProps (groupId artifactId version now : string) : ZipSource :=
  BufferRecord (pomProps_path groupId artifactId)
    (buffer_from (pomProps_text groupId artifactId version now)).

(** What the readable side of the transform emits: an object, or the
    end-of-stream marker [push(null)]. *)
Inductive chunk :=
  | Push (z : ZipSource)
  | PushNull.

(** The object-mode [Transform] built by [pathToRecord]: whether its
    writable side has been ended, whether that side has emitted ['finish']
    (which Node does only once the callback given to [final] is called),
    and everything pushed so far. *)
Record TState := { ended : bool; finished : bool; pushed : list chunk }.

Definition init : TState := {| ended := false; finished := false; pushed := [] |}.

(** The environment the transform closes over: platform, working
    directory, build arguments and the date string.  [cwd] is
    [process.cwd()] as its segments, used by [path.posix].
    [win32_relative] stands for Node's [path.win32.relative] with the
    process's working directories; it is not modelled, and what is shown
    below about names on Windows holds for every function in its place. *)
Record Env := {
  plat : NodePath.platform;
  cwd : list string;
  win32_relative : string -> string -> string;
  args : JarArgs;
  now : string
}.

(** [relative] imported from ["path"] on the running platform. *)
Definition path_relative (e : Env) (from to : string) : string :=
  match plat e with
  | NodePath.Posix => NodePath.relative (cwd e) from to
  | NodePath.Win32 => win32_relative e from to
  end.

(** [relative(rootPath, path).split(sep).join("/")] *)
Definition filename_of (e : Env) (path : string) : string :=
  Str.join "/" (Str.split (NodePath.sep_char (plat e))
                  (path_relative e (rootPath (args e)) path)).

(** The object [transform] pushes for one path. *)
Definition natural_record (e : Env) (path : string) : chunk :=
  Push (FileRecord (filename_of e path) path).

Definition is_file_chunk (c : chunk) : bool :=
  match c with Push (FileRecord _ _) => true | _ => false end.

(** [transform]: push [{ filename, path }] and call [cb()], which lets
    the next chunk in. *)
Definition transform (e : Env) (path : string) (st : TState) : TState :=
  {| ended := ended st; finished := finished st;
     pushed := pushed st ++ [natural_record e path] |}.

(** [final]: push the manifest, the pom.properties record and [null].  It
    declares no callback parameter and so never calls the one Node passes
    it: the writable side is ended but never emits ['finish']. *)
Definition final (e : Env) (st : TState) : TState :=
  {| ended := true; finished := finished st;
     pushed := pushed st ++ [Push manifest; Push (pomProps (groupId (args e)) (artifactId (args e)) (version (args e)) (now e)); PushNull] |}.

(** [write(chunk)] and [end()] on the writable side; once ended, both fail
    ([ERR_STREAM_WRITE_AFTER_END]), written as [None]. *)
Definition write (e : Env) (path : string) (st : TState) : option TState :=
  if ended st then None else Some (transform e path st).

Definition end_ (e : Env) (st : TState) : option TState :=
  if ended st then None else Some (final e st).

Fixpoint write_all (e : Env) (paths : list string) (st : TState) : option TState :=
  match paths with
  | [] => Some st
  | p :: ps => write e p st ≫= write_all e ps
  end.

(** [Readable.from(walk(rootPath))] piped into [pathToRecord()]: every path
    is written in order, then the writable side is ended. *)
Definition run_adapter (e : Env) (paths : list string) : option TState :=
  write_all e paths init ≫= end_ e.



(** The two records appended after the walk, as built by [jar]. *)
Definition synthesized (args : JarArgs) (now : string) : list ZipSource :=
  [manifest; pomProps (groupId args) (artifactId args) (version args) now].

End Jar.

(* ------------------------------------------------------------------ *)
(** ** Standalone usage: [main] *)

Module Cli.
Import Jar.

(** [argv[i]]: [undefined] past the end. *)
Definition argv_at (argv : list string) (i : nat) : option string := argv !! i.

(** [x ?? d] on a value that is a string or [undefined]. *)
Definition nullish (x : option string) (d : string) : string :=
  match x with Some s => s | None => d end.

(** The object literal passed to [jar] by [main]; [rootPath] and
    [targetPath] are [undefined] when too few arguments are given. *)
Record CliArgs := {
  cli_rootPath : option string;
  cli_targetPath : option string;
  cli_artifactId : string;
  cli_groupId : string;
  cli_version : string
}.

Definition main_args (argv : list string) (env : gmap string string) : CliArgs :=
  {| cli_rootPath := argv_at argv 2;
     cli_targetPath := argv_at argv 3;
     cli_artifactId := nullish (env !! "ARTIFACT_ID") "artifact";
     cli_groupId := nullish (env !! "GROUP_ID") "group";
     cli_version := nullish (env !! "VERSION") "1.0.0" |}.

(** How the promise returned by [jar(...)] settles; a rejection carries
    the thrown error's printed form. *)
Inductive outcome := Fulfilled | Rejected (err : string).

(** What the process leaves behind when its event loop drains. *)
Record ProcessEnd := { exit_code : Z; stderr : list string }.

(** [p.catch(e => console.error(e))]: a rejection is printed and the
    resulting promise fulfils with [undefined]. *)
Definition catch_console_error (o : outcome) : outcome * list string :=
  match o with
  | Fulfilled => (Fulfilled, [])
  | Rejected e => (Fulfilled, [e])
  end.

(** Node's exit status: 1 for an unhandled rejection, otherwise
    [process.exitCode], which nothing here sets (so 0). *)
Definition exit_status (o : outcome) : Z :=
  match o with Fulfilled => 0%Z | Rejected _ => 1%Z end.

(** [main().catch(e => console.error(e))], given how [jar] settles. *)
Definition run_main (jar_result : outcome) : ProcessEnd :=
  let '(o, err) := catch_console_error jar_result in
  {| exit_code := exit_status o; stderr := err |}.

End Cli.

(** Concrete builds used below. *)
Module Demo.
Import Jar.

Definition args0 : JarArgs :=
  {| rootPath := "/r"; targetPath := "/out.jar"; groupId := "g"; artifactId := "a";
     version := "1.0.0" |}.

Definition date0 : string := "Sat Oct 17 2026 10:00:00 GMT+0000 (Coordinated Universal Time)".
Definition date1 : string := "Sat Oct 17 2026 10:00:01 GMT+0000 (Coordinated Universal Time)".

(** A POSIX process in [/]; [win32_relative] is not used on POSIX. *)
Definition env0 : Env :=
  {| plat := NodePath.Posix; cwd := []; win32_relative := fun _ to => to;
     args := args0; now := date0 |}.

(** A Windows process packaging [C:\r]; [win32_relative] returns what
    [path.win32.relative("C:\r", "C:\r\sub\b.txt")] does. *)
Definition args_win : JarArgs :=
  {| rootPath := "C:\r"; targetPath := "C:\out.jar"; groupId := "g"; artifactId := "a";
     version := "1.0.0" |}.

Definition env_win : Env :=
  {| plat := NodePath.Win32; cwd := []; win32_relative := fun _ _ => "sub\b.txt";
     args := args_win; now := date0 |}.

(** An artifact id spanning two lines, the second one indented. *)
Definition args_multiline : JarArgs :=
  {| rootPath := "/r"; targetPath := "/out.jar"; groupId := "g";
     artifactId := "a" +:+ nl +:+ " b"; version := "1.0.0" |}.

End Demo.

(* ================================================================== *)
(** * Lemmas about the helpers *)

Module StrFacts.
Import Str.

Lemma sapp_assoc (a b c : string) : (a +:+ b) +:+ c = a +:+ b +:+ c.
Proof. induction a as [|x a IH]; simpl; [done | by rewrite IH]. Qed.

Lemma sapp_nil_r (a : string) : a +:+ EmptyString = a.
Proof. induction a as [|x a IH]; simpl; [done | by rewrite IH]. Qed.

Lemma sapp_inj_l (a b c : string) : a +:+ b = a +:+ c -> b = c.
Proof. induction a as [|x a IH]; simpl; [done|]. intros H. injection H. apply IH. Qed.

Lemma eqb_false_of (f : ascii -> bool) (c x : ascii) :
  f c = true -> f x = false -> Ascii.eqb x c = false.
Proof.
  intros Hc Hx. destruct (Ascii.eqb_spec x c) as [->|]; [congruence | done].
Qed.

(** Every piece of a split is free of any separator character. *)
Lemma split_by_no_char (f : ascii -> bool) (c : ascii) (s : string) :
  f c = true -> Forall (fun p => no_char c p = true) (split_by f s).
Proof.
  intros Hc. induction s as [|x r IH]; simpl.
  - by repeat constructor.
  - destruct (f x) eqn:Hx.
    + by constructor.
    + destruct (split_by f r) as [|p ps] eqn:E.
      * constructor; [|constructor]. simpl. by rewrite (eqb_false_of f c x Hc Hx).
      * inversion IH as [|? ? Hp Hps]; subst.
        constructor; [|done]. simpl. by rewrite (eqb_false_of f c x Hc Hx), Hp.
Qed.

Lemma split_plain (c : ascii) (x : string) :
  no_char c x = true -> split c x = [x].
Proof.
  unfold split. induction x as [|y x IH]; simpl; [done|].
  intros H. apply andb_prop in H as [H1 H2].
  rewrite Ascii.eqb_sym. apply negb_true_iff in H1. rewrite H1, IH; done.
Qed.

Lemma split_app_sep (c : ascii) (x y : string) :
  no_char c x = true -> split c (x +:+ String c y) = x :: split c y.
Proof.
  unfold split. induction x as [|z x IH]; simpl.
  - by rewrite Ascii.eqb_refl.
  - intros H. apply andb_prop in H as [H1 H2].
    rewrite Ascii.eqb_sym. apply negb_true_iff in H1. rewrite H1, IH; done.
Qed.

(** [l.join(c).split(c)] gives [l] back when no element contains [c]. *)
Lemma split_join (c : ascii) (l : list string) :
  l <> [] -> Forall (fun p => no_char c p = true) l ->
  split c (join (String c EmptyString) l) = l.
Proof.
  induction l as [|x [|y r] IH]; intros Hne Hall; [done| |].
  - inversion Hall; subst. simpl. by apply split_plain.
  - inversion Hall as [|? ? Hx Hr]; subst.
    change (join (String c EmptyString) (x :: y :: r))
      with (x +:+ String c (join (String c EmptyString) (y :: r))).
    rewrite split_app_sep by done. rewrite IH; done.
Qed.

Lemma join_split_join (c : ascii) (l : list string) :
  Forall (fun p => no_char c p = true) l ->
  join "/" (split c (join (String c EmptyString) l)) = join "/" l.
Proof.
  destruct l as [|x r]; intros Hall.
  - done.
  - by rewrite split_join.
Qed.



End StrFacts.

Module PathFacts.
Import NodePath.

Lemma Forall_tail {A} (P : A -> Prop) (l : list A) : Forall P l -> Forall P (tail l).
Proof. destruct l; simpl; [done|]. by inversion 1. Qed.

Lemma normalize_segs_Forall (P : string -> Prop) (acc segs : list string) :
  Forall P acc -> Forall P segs -> Forall P (normalize_segs acc segs).
Proof.
  revert acc. induction segs as [|s r IH]; intros acc Ha Hs; simpl.
  - by apply Forall_rev.
  - inversion Hs; subst.
    destruct (String.eqb s "" || String.eqb s ".");
      [|destruct (String.eqb s "..")]; apply IH; auto using Forall_tail.
Qed.

Lemma resolve_no_sep (cwd : list string) (s : string) :
  Forall (fun q => Str.no_char "/"%char q = true) cwd ->
  Forall (fun q => Str.no_char "/"%char q = true) (resolve cwd s).
Proof.
  intros Hcwd. unfold resolve. apply normalize_segs_Forall.
  - destruct (is_absolute s); [constructor | by apply Forall_rev].
  - by apply StrFacts.split_by_no_char.
Qed.

(** The name of a path on POSIX is [path.posix.relative] with [/] kept. *)
Lemma filename_of_posix (e : Jar.Env) (path : string) :
  Jar.plat e = Posix ->
  Jar.filename_of e path =
  Str.join "/" (Str.split "/"%char (relative (Jar.cwd e) (Jar.rootPath (Jar.args e)) path)).
Proof. intros Hp. unfold Jar.filename_of, Jar.path_relative. by rewrite Hp. Qed.

Lemma repeat_no_char (n : nat) :
  Forall (fun q => Str.no_char "/"%char q = true) (repeat ".." n).
Proof. induction n as [|n IHn]; simpl; constructor; [reflexivity | done]. Qed.

Lemma strip_common_Forall (P : string -> Prop) (f t : list string) :
  Forall P f -> Forall P t ->
  Forall P (strip_common f t).1 /\ Forall P (strip_common f t).2.
Proof.
  revert t. induction f as [|x f IH]; intros [|y t] Hf Ht; simpl; auto.
  destruct (String.eqb x y); [|auto].
  inversion Hf; inversion Ht; subst. auto.
Qed.

Lemma strip_common_app (f r : list string) : strip_common f (f ++ r) = ([], r).
Proof.
  induction f as [|x f IH]; simpl; [by destruct r|].
  by rewrite String.eqb_refl.
Qed.

End PathFacts.

Module TextFacts.
Import Text StrFacts.

(** The scan of a concatenation is the scan of the first part followed by
    the scan of the second from the state the first part left. *)
Lemma trim_go_app (b : bool) (s t : string) :
  trim_go b (s +:+ t) = trim_go b s +:+ trim_go (trim_state b s) t.
Proof.
  revert b. induction s as [|c s IH]; intros b; simpl; [done|].
  destruct (b && is_ws c); [apply IH|].
  destruct (is_nl c) eqn:E; simpl; by rewrite IH.
Qed.

Lemma is_nl_false (c : ascii) (s : string) :
  Str.no_char "010"%char (String c s) = true -> is_nl c = false.
Proof.
  simpl. intros H. apply andb_prop in H as [H _]. by apply negb_true_iff in H.
Qed.

(** Text without a line feed passes unchanged when not right after one. *)
Lemma trim_go_plain (s : string) :
  Str.no_char "010"%char s = true ->
  trim_go false s = s /\ trim_state false s = false.
Proof.
  induction s as [|c s IH]; intros H; simpl; [done|].
  rewrite (is_nl_false c s H). simpl in H. apply andb_prop in H as [_ H].
  destruct (IH H) as [-> ->]. done.
Qed.

Lemma trim_go_plain_app (s t : string) :
  Str.no_char "010"%char s = true ->
  trim_go false (s +:+ t) = s +:+ trim_go false t.
Proof.
  intros H. rewrite trim_go_app. by destruct (trim_go_plain s H) as [-> ->].
Qed.

(** A line feed and the template's indentation before a non-blank
    character: the indentation is deleted; the line feed is kept unless it
    is itself part of an earlier match. *)
Lemma trim_nl_indent (b : bool) (c : ascii) (r : string) :
  is_ws c = false ->
  trim_go b (nl +:+ Jar.indent +:+ String c r) =
  (if b then EmptyString else nl) +:+ String c (trim_go false r).
Proof.
  intros Hc. destruct b; simpl; rewrite Hc; simpl;
    destruct (is_nl c) eqn:E; try done;
    unfold is_nl in E; apply Ascii.eqb_eq in E; subst; discriminate.
Qed.

(** [Buffer.from] is decoded back by [utf8_decode]. *)
Lemma utf8_decode_char (c : ascii) (l : list Z) :
  utf8_decode (utf8_char c ++ l) = String c <$> utf8_decode l.
Proof.
  unfold utf8_char.
  pose proof (nat_ascii_bounded c) as Hb.
  pose proof (ascii_nat_embedding c) as Hc.
  remember (nat_of_ascii c) as n.
  destruct (Z.ltb_spec (Z.of_nat n) 128) as [Hlt|Hge]; simpl.
  - destruct (Z.ltb_spec (Z.of_nat n) 128); [|lia].
    by rewrite Nat2Z.id, Hc.
  - destruct (Z.ltb_spec (192 + Z.of_nat n / 64) 128) as [Hbad|_].
    { pose proof (Z.div_pos (Z.of_nat n) 64). lia. }
    assert ((192 + Z.of_nat n / 64 - 192) * 64 + (128 + Z.of_nat n mod 64 - 128)
            = Z.of_nat n)%Z as ->.
    { pose proof (Z.div_mod (Z.of_nat n) 64). lia. }
    by rewrite Nat2Z.id, Hc.
Qed.

Lemma utf8_decode_buffer (s : string) : utf8_decode (buffer_from s) = Some s.
Proof.
  induction s as [|c s IH]; simpl; [done|].
  by rewrite utf8_decode_char, IH.
Qed.

Lemma buffer_from_inj (s1 s2 : string) : buffer_from s1 = buffer_from s2 -> s1 = s2.
Proof.
  intros H. apply (f_equal utf8_decode) in H.
  rewrite !utf8_decode_buffer in H. by injection H.
Qed.

(** Two texts without a line feed, each followed by a line feed, can only
    agree if the texts do. *)
Lemma line_inj (s1 s2 w1 w2 : string) :
  Str.no_char "010"%char s1 = true -> Str.no_char "010"%char s2 = true ->
  s1 +:+ String "010"%char w1 = s2 +:+ String "010"%char w2 -> s1 = s2.
Proof.
  revert s2. induction s1 as [|c1 s1 IH]; intros [|c2 s2] H1 H2 H; simpl in *.
  - done.
  - injection H as <- _. by rewrite Ascii.eqb_refl in H2.
  - injection H as -> _. by rewrite Ascii.eqb_refl in H1.
  - injection H as -> H.
    apply andb_prop in H1 as [_ H1]. apply andb_prop in H2 as [_ H2].
    by rewrite (IH s2 H1 H2 H).
Qed.

End TextFacts.


Module AdapterFacts.
Import Jar.

Lemma write_all_open (e : Env) (paths : list string) (st : TState) :
  ended st = false ->
  write_all e paths st =
  Some {| ended := false; finished := finished st;
          pushed := pushed st ++ map (natural_record e) paths |}.
Proof.
  revert st. induction paths as [|p ps IH]; intros st H; simpl.
  - destruct st; simpl in *; subst. by rewrite app_nil_r.
  - unfold write. rewrite H. simpl. rewrite IH by done. simpl.
    by rewrite <- app_assoc.
Qed.

Lemma run_adapter_eq (e : Env) (paths : list string) :
  run_adapter e paths =
  Some {| ended := true; finished := false;
          pushed := map (natural_record e) paths ++
                    [Push manifest; Push (pomProps (groupId (args e)) (artifactId (args e)) (version (args e)) (now e)); PushNull] |}.
Proof. unfold run_adapter. by rewrite write_all_open. Qed.

Lemma filter_natural (e : Env) (paths : list string) :
  filter is_file_chunk (map (natural_record e) paths) = map (natural_record e) paths.
Proof. induction paths as [|p ps IH]; simpl; [done|]. by rewrite filter_cons_True, IH. Qed.

Lemma lookup_map_list {A B} (f : A -> B) (l : list A) (i : nat) :
  map f l !! i = f <$> l !! i.
Proof. revert i. induction l as [|x l IH]; intros [|i]; simpl; auto. Qed.

End AdapterFacts.

Module PomFacts.
Import Jar Text TextFacts StrFacts.

Definition header : string := "# Generated by keycloakify".

(** The pom.properties text up to the date line, then the date, then the
    trimmed rest of the template. *)
Lemma pomProps_text_now (g a v now : string) :
  Str.no_char "010"%char now = true ->
  pomProps_text g a v now = header +:+ nl +:+ "# " +:+ now +:+ trim_go false (pomProps_tail g a v).
Proof.
  intros Hnow. unfold pomProps_text, trimIndent, pomProps_tail.
  rewrite trim_go_plain_app by reflexivity. f_equal.
  change ("# " +:+ now +:+ ?X) with (String "#" (" " +:+ now +:+ X)).
  rewrite trim_nl_indent by reflexivity. simpl. f_equal. f_equal. f_equal.
  by rewrite trim_go_plain_app.
Qed.

Lemma pomProps_tail_nl (g a v : string) :
  exists w, trim_go false (pomProps_tail g a v) = String "010"%char w.
Proof.
  unfold pomProps_tail.
  change ("artifactId=" +:+ ?X) with (String "a" ("rtifactId=" +:+ X)).
  rewrite trim_nl_indent by reflexivity. by eexists.
Qed.

End PomFacts.

Module TrimFacts.
Import Text StrFacts.

Lemma is_nl_is_ws (c : ascii) : is_nl c = true -> is_ws c = true.
Proof. unfold is_nl. intros H. apply Ascii.eqb_eq in H. by subst. Qed.

(** Right after a line feed, the output never starts with whitespace. *)
Lemma trim_go_true_head (s : string) :
  match trim_go true s with String c _ => is_ws c = false | EmptyString => True end.
Proof.
  induction s as [|c r IH]; simpl; [done|].
  destruct (is_ws c) eqn:Hw; simpl; [done|].
  destruct (is_nl c) eqn:Hn; [by rewrite (is_nl_is_ws c Hn) in Hw | done].
Qed.

Lemma trim_go_lf_ws_free (b : bool) (s : string) : lf_ws_free (trim_go b s) = true.
Proof.
  revert b. induction s as [|c r IH]; intros b; simpl; [done|].
  destruct (b && is_ws c); [apply IH|].
  destruct (is_nl c) eqn:Hn; simpl; rewrite Hn, IH; [|done].
  pose proof (trim_go_true_head r) as H.
  destruct (trim_go true r); [done|]. by rewrite H.
Qed.

Lemma lf_ws_free_app_false (p q : string) (c : ascii) :
  is_ws c = true -> lf_ws_free (p +:+ String "010"%char (String c q)) = false.
Proof.
  intros Hc. induction p as [|x p IH]; simpl.
  - by rewrite Hc.
  - by rewrite IH, andb_false_r.
Qed.

Lemma trim_go_true_nonws (s : string) :
  match s with String c _ => is_ws c = false | EmptyString => True end ->
  trim_go true s = trim_go false s.
Proof.
  destruct s as [|c r]; simpl; [done|]. intros H. by rewrite H.
Qed.

(** Text already free of indented lines is a fixed point of the scan. *)
Lemma trim_go_fixed (s : string) : lf_ws_free s = true -> trim_go false s = s.
Proof.
  induction s as [|c r IH]; simpl; [done|]. intros H.
  apply andb_prop in H as [H1 H2].
  destruct (is_nl c) eqn:Hn.
  - rewrite trim_go_true_nonws; [by rewrite IH|].
    destruct r; [done|]. by apply negb_true_iff in H1.
  - by rewrite IH.
Qed.

Lemma strip_ws_trim_go (b : bool) (s : string) : strip_ws (trim_go b s) = strip_ws s.
Proof.
  revert b. induction s as [|c r IH]; intros b; simpl; [done|].
  destruct (b && is_ws c) eqn:Hb.
  - apply andb_prop in Hb as [_ Hw]. rewrite Hw. apply IH.
  - destruct (is_nl c) eqn:Hn; simpl.
    + by rewrite (is_nl_is_ws c Hn).
    + destruct (is_ws c); [|f_equal]; apply IH.
Qed.

End TrimFacts.

Module CleanText.
Import Text StrFacts.







End CleanText.

Module PomClean.
Import Jar Text CleanText.




End PomClean.

(* ================================================================== *)
(** * The claims *)

Module Claims.
Import Jar Cli Demo.

(** C1 (counterexample): the adapter does not reject a path outside
    [rootPath]: with [rootPath = "/r"] on POSIX, the walk's path
    ["/x/a.txt"] is pushed as a record named ["../x/a.txt"], followed by
    the two synthesized records and [null]; [path.relative] never
    fails. *)
Lemma C1_outside_root_not_rejected :
  run_adapter env0 ["/x/a.txt"] =
  Some {| ended := true; finished := false;
          pushed := [Push (FileRecord "../x/a.txt" "/x/a.txt"); Push manifest;
                     Push (pomProps "g" "a" "1.0.0" date0); PushNull] |}.
Proof. vm_compute. reflexivity. Qed.

(** C1 (amended): on every platform the transform pushes the record of
    every path, named [relative(rootPath, path)] with the platform
    separator replaced by [/]; nothing is rejected.  On POSIX the name is
    one [..] per segment of the resolved [rootPath] past the common
    prefix, followed by the remaining segments of the resolved path, so a
    path under [rootPath] is named by its part after [rootPath].  On
    Windows it is [path.win32.relative]'s result with [\] replaced by
    [/]. *)
Theorem C1_normalize_relative (e : Env) (path : string) :
  (exists st, run_adapter e [path] = Some st /\
              pushed st !! 0 = Some (Push (FileRecord (filename_of e path) path))) /\
  (plat e = NodePath.Posix ->
   Forall (fun q => Str.no_char "/"%char q = true) (cwd e) ->
   let R := NodePath.resolve (cwd e) (rootPath (args e)) in
   let P := NodePath.resolve (cwd e) path in
   filename_of e path =
     Str.join "/" (repeat ".." (length (NodePath.strip_common R P).1)
                   ++ (NodePath.strip_common R P).2) /\
   (forall rest, P = R ++ rest -> filename_of e path = Str.join "/" rest)) /\
  (plat e = NodePath.Win32 ->
   filename_of e path =
     Str.join "/" (Str.split "\"%char (win32_relative e (rootPath (args e)) path))).
Proof.
  split; [eexists; split; [apply AdapterFacts.run_adapter_eq | reflexivity]|].
  split.
  - intros Hp Hcwd R P.
    assert (Hf : filename_of e path =
      Str.join "/" (repeat ".." (length (NodePath.strip_common R P).1)
                    ++ (NodePath.strip_common R P).2)).
    { rewrite PathFacts.filename_of_posix by done. unfold NodePath.relative. fold R P.
      destruct (NodePath.strip_common R P) as [f t] eqn:E. simpl.
      apply StrFacts.join_split_join. apply Forall_app. split; [apply PathFacts.repeat_no_char|].
      pose proof (PathFacts.strip_common_Forall _ R P
        (PathFacts.resolve_no_sep _ _ Hcwd) (PathFacts.resolve_no_sep _ _ Hcwd)) as [_ H2].
      by rewrite E in H2. }
    split; [done|].
    intros rest HP. rewrite Hf, HP, PathFacts.strip_common_app. done.
  - intros Hw. unfold filename_of, path_relative. by rewrite Hw.
Qed.

Lemma C1_normalize_relative_witness :
  filename_of env0 "/r/sub/b.txt" = "sub/b.txt" /\
  filename_of env0 "/x/a.txt" = "../x/a.txt" /\
  filename_of env_win "C:\r\sub\b.txt" = "sub/b.txt".
Proof.
  split; [|split].
  - destruct (C1_normalize_relative env0 "/r/sub/b.txt") as [_ [H _]].
    specialize (H eq_refl ltac:(constructor)). destruct H as [_ H].
    apply (H ["sub"; "b.txt"]). vm_compute. reflexivity.
  - destruct (C1_normalize_relative env0 "/x/a.txt") as [_ [H _]].
    specialize (H eq_refl ltac:(constructor)). destruct H as [H _].
    rewrite H. vm_compute. reflexivity.
  - destruct (C1_normalize_relative env_win "C:\r\sub\b.txt") as [_ [_ H]].
    rewrite (H eq_refl). vm_compute. reflexivity.
Defined.

(** C2: after the natural records, the adapter pushes the manifest, then
    pom.properties, then [null]; after that its writable side is ended, so
    every further [write] or [end] fails and nothing else is pushed. *)
Theorem C2_final_two_then_end (e : Env) (paths : list string) :
  exists st, run_adapter e paths = Some st /\
    pushed st = map (natural_record e) paths ++
                [Push manifest; Push (pomProps (groupId (args e)) (artifactId (args e)) (version (args e)) (now e)); PushNull] /\
    (forall p, write e p st = None) /\ end_ e st = None.
Proof.
  eexists. split; [apply AdapterFacts.run_adapter_eq|].
  split; [reflexivity|]. split; [intros p; reflexivity | reflexivity].
Qed.

(** C3: the data of both synthesized records is a function of groupId,
    artifactId, version and the date string alone (the manifest's is a
    constant); rootPath and targetPath play no part. *)
Theorem C3_synthesized_data_from_params :
  exists f : string -> string -> string -> string -> list (option (list Z)),
    forall (a : JarArgs) (d : string),
      map zs_data (synthesized a d) = f (groupId a) (artifactId a) (version a) d.
Proof.
  exists (fun g ar v d =>
    [Some (Text.buffer_from manifest_text);
     Some (Text.buffer_from (pomProps_text g ar v d))]).
  intros a d. reflexivity.
Qed.

(** C4 (counterexample): when [jar] rejects, the error is printed but the
    process exits with status 0. *)
Lemma C4_failure_exits_zero :
  run_main (Rejected "Error: ENOENT: no such file or directory") =
  {| exit_code := 0%Z; stderr := ["Error: ENOENT: no such file or directory"] |}.
Proof. reflexivity. Qed.

(** C4 (amended): a failure of [jar] is printed to stderr with
    [console.error]; the exit status is 0 whether or not the build fails. *)
Theorem C4_main_exit_status (o : outcome) :
  exit_code (run_main o) = 0%Z /\
  stderr (run_main o) = match o with Fulfilled => [] | Rejected err => [err] end.
Proof. by destruct o. Qed.




(** C6: the two synthesized records are named [META-INF/MANIFEST.MF] and
    [META-INF/maven/<groupId>/<artifactId>/pom.properties]. *)
Theorem C6_synthesized_paths (a : JarArgs) (d : string) :
  map zs_name (synthesized a d) =
  ["META-INF/MANIFEST.MF";
   "META-INF/maven/" +:+ groupId a +:+ "/" +:+ artifactId a +:+ "/pom.properties"].
Proof. reflexivity. Qed.

(** C7: the file records pushed by the adapter are exactly one per walked
    path, in the order of the walk: the [i]-th pushed object is the
    record of the [i]-th path. *)
Theorem C7_records_in_input_order (e : Env) (paths : list string) :
  exists st, run_adapter e paths = Some st /\
    filter is_file_chunk (pushed st) = map (natural_record e) paths /\
    (forall i, i < length paths -> pushed st !! i = natural_record e <$> paths !! i).
Proof.
  eexists. split; [apply AdapterFacts.run_adapter_eq|]. simpl. split.
  - rewrite filter_app, AdapterFacts.filter_natural.
    unfold manifest, pomProps. rewrite app_nil_r. reflexivity.
  - intros i Hi. rewrite lookup_app_l by (by rewrite length_map).
    apply AdapterFacts.lookup_map_list.
Qed.



(** C9: [main] takes the source directory from [argv[2]] and the output
    file from [argv[3]]; each of [ARTIFACT_ID], [GROUP_ID] and [VERSION]
    that is unset falls back to ["artifact"], ["group"] or ["1.0.0"],
    whatever the others are. *)
Theorem C9_cli_arguments_and_defaults (argv : list string) (env : gmap string string) :
  (forall node script src out rest, argv = node :: script :: src :: out :: rest ->
     cli_rootPath (main_args argv env) = Some src /\
     cli_targetPath (main_args argv env) = Some out) /\
  (env !! "ARTIFACT_ID" = None -> cli_artifactId (main_args argv env) = "artifact") /\
  (env !! "GROUP_ID" = None -> cli_groupId (main_args argv env) = "group") /\
  (env !! "VERSION" = None -> cli_version (main_args argv env) = "1.0.0").
Proof.
  unfold main_args, nullish. simpl. split.
  - intros node script src out rest ->. done.
  - split; [|split]; intros H; by rewrite H.
Qed.

(** Only [GROUP_ID] set: the other two fall back to their defaults. *)
Lemma C9_cli_arguments_and_defaults_witness :
  let env := <["GROUP_ID" := "org.example"]> (∅ : gmap string string) in
  cli_rootPath (main_args ["node"; "jar.ts"; "src"; "out.jar"] env) = Some "src" /\
  cli_targetPath (main_args ["node"; "jar.ts"; "src"; "out.jar"] env) = Some "out.jar" /\
  cli_artifactId (main_args ["node"; "jar.ts"; "src"; "out.jar"] env) = "artifact" /\
  cli_version (main_args ["node"; "jar.ts"; "src"; "out.jar"] env) = "1.0.0".
Proof.
  intros env.
  destruct (C9_cli_arguments_and_defaults ["node"; "jar.ts"; "src"; "out.jar"] env)
    as (Hpos & Ha & _ & Hv).
  destruct (Hpos "node" "jar.ts" "src" "out.jar" [] eq_refl) as [H1 H2].
  split; [exact H1|]. split; [exact H2|].
  split; [apply Ha | apply Hv]; reflexivity.
Defined.

(** C10: the pom.properties bytes depend on the date: two invocations
    with the same parameters whose date strings differ (dates print on
    one line) produce different pom.properties data. *)
Theorem C10_pom_bytes_depend_on_date (g a v now1 now2 : string) :
  Str.no_char "010"%char now1 = true -> Str.no_char "010"%char now2 = true ->
  now1 <> now2 ->
  zs_data (pomProps g a v now1) <> zs_data (pomProps g a v now2).
Proof.
  intros H1 H2 Hne Hd.
  assert (Heq : pomProps_text g a v now1 = pomProps_text g a v now2).
  { apply TextFacts.buffer_from_inj. unfold zs_data, pomProps in Hd. congruence. }
  rewrite !PomFacts.pomProps_text_now in Heq by done.
  destruct (PomFacts.pomProps_tail_nl g a v) as [w Hw]. rewrite Hw in Heq.
  do 3 apply StrFacts.sapp_inj_l in Heq.
  exact (Hne (TextFacts.line_inj _ _ _ _ H1 H2 Heq)).
Qed.

Lemma C10_pom_bytes_depend_on_date_witness :
  zs_data (pomProps "g" "a" "1.0.0" date0) <> zs_data (pomProps "g" "a" "1.0.0" date1).
Proof.
  apply C10_pom_bytes_depend_on_date; [reflexivity | reflexivity |].
  unfold date0, date1. discriminate.
Defined.

End Claims.

(* ================================================================== *)
(** * Further properties of the code *)

Module PomLines.
Import Jar Text TextFacts StrFacts.

Lemma pomProps_tail_trim (g a v : string) :
  Str.no_char "010"%char g = true ->
  Str.no_char "010"%char a = true ->
  Str.no_char "010"%char v = true ->
  trim_go false (pomProps_tail g a v) =
  nl +:+ "artifactId=" +:+ a +:+ nl +:+ "groupId=" +:+ g +:+ nl +:+ "version=" +:+ v.
Proof.
  intros Hg Ha Hv. unfold pomProps_tail.
  change ("artifactId=" +:+ ?X) with (String "a" ("rtifactId=" +:+ X)).
  rewrite trim_nl_indent by reflexivity. f_equal.
  change (String "a" ("rtifactId=" +:+ ?X)) with ("artifactId=" +:+ X).
  rewrite !trim_go_plain_app by done. f_equal. f_equal. f_equal.
  change ("groupId=" +:+ ?X) with (String "g" ("roupId=" +:+ X)).
  rewrite trim_nl_indent by reflexivity. f_equal.
  change (String "g" ("roupId=" +:+ ?X)) with ("groupId=" +:+ X).
  rewrite !trim_go_plain_app by done. f_equal. f_equal. f_equal.
  change ("version=" +:+ ?X) with (String "v" ("ersion=" +:+ X)).
  rewrite trim_nl_indent by reflexivity. f_equal.
  change (String "v" ("ersion=" +:+ ?X)) with ("version=" +:+ X).
  rewrite <- (sapp_nil_r v) at 1.
  rewrite !trim_go_plain_app by done. by rewrite sapp_nil_r.
Qed.

End PomLines.

Module PathShape.
Import NodePath Jar StrFacts.

Lemma normalize_segs_clean (acc segs : list string) :
  Forall (fun q => clean_seg q = true) acc ->
  Forall (fun q => Str.no_char "/"%char q = true) segs ->
  Forall (fun q => clean_seg q = true) (normalize_segs acc segs).
Proof.
  revert acc. induction segs as [|x r IH]; intros acc Ha Hs; simpl.
  - by apply Forall_rev.
  - inversion Hs as [|? ? Hx Hr]; subst.
    destruct (String.eqb x "") eqn:E1; [by apply IH|].
    destruct (String.eqb x ".") eqn:E2; [by apply IH|]. simpl.
    destruct (String.eqb x "..") eqn:E3.
    + apply IH; [by apply PathFacts.Forall_tail | done].
    + apply IH; [|done]. constructor; [|done].
      unfold clean_seg. by rewrite E1, E2, E3, Hx.
Qed.

Lemma resolve_clean (cwd : list string) (s : string) :
  Forall (fun q => clean_seg q = true) cwd ->
  Forall (fun q => clean_seg q = true) (resolve cwd s).
Proof.
  intros Hc. unfold resolve. apply normalize_segs_clean; [|by apply split_by_no_char].
  destruct (is_absolute s); [constructor | by apply Forall_rev].
Qed.

Lemma clean_no_char (s : string) : clean_seg s = true -> Str.no_char "/"%char s = true.
Proof. unfold clean_seg. intros H. by apply andb_prop in H as [_ H]. Qed.

Lemma clean_nonempty (s : string) : clean_seg s = true -> s <> "".
Proof. intros H ->. discriminate. Qed.

(** The archive name on POSIX: one [..] per unmatched segment of
    [rootPath], then the unmatched segments of the path, joined with
    [/]. *)
Lemma filename_of_eq (e : Env) (path : string) :
  plat e = Posix ->
  Forall (fun q => clean_seg q = true) (cwd e) ->
  let '(f, t) := strip_common (resolve (cwd e) (rootPath (args e)))
                              (resolve (cwd e) path) in
  filename_of e path = Str.join "/" (repeat ".." (length f) ++ t) /\
  Forall (fun q => clean_seg q = true) t.
Proof.
  intros Hp Hc.
  pose proof (resolve_clean _ (rootPath (args e)) Hc) as HR.
  pose proof (resolve_clean _ path Hc) as HP.
  pose proof (PathFacts.strip_common_Forall _ _ _ HR HP) as [_ Ht].
  rewrite PathFacts.filename_of_posix by done. unfold relative.
  destruct (strip_common _ _) as [f t]. simpl in Ht. split; [|done].
  apply StrFacts.join_split_join. apply Forall_app. split; [apply PathFacts.repeat_no_char|].
  eapply Forall_impl; [exact Ht|]. intros q. apply clean_no_char.
Qed.

Lemma no_char_app (c : ascii) (u w : string) :
  Str.no_char c (u +:+ w) = Str.no_char c u && Str.no_char c w.
Proof. induction u as [|z u IHu]; simpl; [done|]. by rewrite IHu, andb_assoc. Qed.

Lemma join_cons2 (sep x y : string) (r : list string) :
  Str.join sep (x :: y :: r) = x +:+ sep +:+ Str.join sep (y :: r).
Proof. reflexivity. Qed.

Lemma join_no_char (c : ascii) (l : list string) :
  c <> "/"%char -> Forall (fun q => Str.no_char c q = true) l ->
  Str.no_char c (Str.join "/" l) = true.
Proof.
  intros Hc. induction l as [|x [|y r] IH]; intros H; [done| |].
  - inversion H as [|? ? Hx _]; subst. exact Hx.
  - inversion H as [|? ? Hx Hr]; subst.
    rewrite join_cons2, !no_char_app, Hx, (IH Hr). cbn [Str.no_char].
    destruct (Ascii.eqb_spec "/"%char c); [congruence | done].
Qed.

Lemma join_empty (l : list string) :
  Forall (fun q => q <> "") l -> Str.join "/" l = "" -> l = [].
Proof.
  destruct l as [|x [|y r]]; intros H E; [done| |].
  - inversion H; subst. simpl in E. congruence.
  - inversion H as [|? ? Hx _]; subst.
    change (Str.join "/" (x :: y :: r)) with (x +:+ "/" +:+ Str.join "/" (y :: r)) in E.
    destruct x; simpl in E; [done | discriminate].
Qed.

Lemma strip_common_nil (f t : list string) : strip_common f t = ([], []) -> f = t.
Proof.
  revert t. induction f as [|x f IH]; intros [|y t]; simpl; try congruence.
  destruct (String.eqb_spec x y) as [->|]; [|congruence].
  intros H. by rewrite (IH t H).
Qed.

End PathShape.

Module Extras.
Import Text Jar Cli.

(** X1: [trimIndent] is idempotent. *)
Theorem X1_trimIndent_idempotent (s : string) :
  trimIndent (trimIndent s) = trimIndent s.
Proof. unfold trimIndent. apply TrimFacts.trim_go_fixed, TrimFacts.trim_go_lf_ws_free. Qed.

(** X2: in the output of [trimIndent], no line feed is followed by a
    whitespace character (blank and indented lines are gone). *)
Theorem X2_trimIndent_no_indented_line (s : string) :
  ~ (exists p c q, is_ws c = true /\ trimIndent s = p +:+ String "010"%char (String c q)).
Proof.
  intros (p & c & q & Hc & H).
  pose proof (TrimFacts.trim_go_lf_ws_free false s) as K.
  unfold trimIndent in H. rewrite H, TrimFacts.lf_ws_free_app_false in K by done.
  discriminate.
Qed.

(** X3: [trimIndent] deletes only whitespace: the non-whitespace
    characters of its input are all kept, in order. *)
Theorem X3_trimIndent_keeps_non_ws (s : string) :
  strip_ws (trimIndent s) = strip_ws s.
Proof. apply TrimFacts.strip_ws_trim_go. Qed.

(** X4: the first line is left as it is, leading whitespace included:
    [trimIndent] only acts after a line feed. *)
Theorem X4_trimIndent_first_line (p t : string) :
  Str.no_char "010"%char p = true -> trimIndent (p +:+ t) = p +:+ trimIndent t.
Proof. apply TextFacts.trim_go_plain_app. Qed.

Lemma X4_trimIndent_first_line_witness :
  trimIndent ("  a" +:+ nl +:+ "  b") = "  a" +:+ trimIndent (nl +:+ "  b").
Proof. apply X4_trimIndent_first_line. reflexivity. Defined.

(** X5: when the date and the three parameters hold no line feed, the
    pom.properties text is exactly five lines joined by line feeds, with
    no trailing line feed. *)
Theorem X5_pomProps_five_lines (g a v now : string) :
  Str.no_char "010"%char g = true -> Str.no_char "010"%char a = true ->
  Str.no_char "010"%char v = true -> Str.no_char "010"%char now = true ->
  pomProps_text g a v now =
  Str.join nl ["# Generated by keycloakify"; "# " +:+ now; "artifactId=" +:+ a;
               "groupId=" +:+ g; "version=" +:+ v].
Proof.
  intros Hg Ha Hv Hn.
  rewrite PomFacts.pomProps_text_now, PomLines.pomProps_tail_trim by done.
  unfold PomFacts.header. simpl. rewrite ?StrFacts.sapp_assoc. reflexivity.
Qed.

Lemma X5_pomProps_five_lines_witness :
  pomProps_text "g" "a" "1.0.0" Demo.date0 =
  Str.join nl ["# Generated by keycloakify"; "# " +:+ Demo.date0; "artifactId=" +:+ "a";
               "groupId=" +:+ "g"; "version=" +:+ "1.0.0"].
Proof. apply X5_pomProps_five_lines; reflexivity. Defined.

(** X6: on POSIX the archive name of a walked path is a run of [..]
    segments followed by segments that are neither empty, ["."] nor [".."]
    and hold no [/] (given a resolved working directory). *)
Theorem X6_filename_shape (e : Env) (path : string) :
  plat e = NodePath.Posix ->
  Forall (fun q => NodePath.clean_seg q = true) (cwd e) ->
  exists k rest, filename_of e path = Str.join "/" (repeat ".." k ++ rest) /\
                 Forall (fun q => NodePath.clean_seg q = true) rest.
Proof.
  intros Hp Hc. pose proof (PathShape.filename_of_eq e path Hp Hc) as H.
  destruct (NodePath.strip_common _ _) as [f t]. destruct H as [H1 H2].
  by exists (length f), t.
Qed.

Lemma X6_filename_shape_witness :
  exists k rest, filename_of Demo.env0 "/x/./y//z.txt" = Str.join "/" (repeat ".." k ++ rest) /\
                 Forall (fun q => NodePath.clean_seg q = true) rest.
Proof. apply X6_filename_shape; [reflexivity | constructor]. Defined.

(** X7: on Windows the archive name never contains a backslash, whatever
    [path.win32.relative] returns: [split(sep).join("/")] replaces every
    one of them. *)
Theorem X7_win32_no_backslash (e : Env) (path : string) :
  plat e = NodePath.Win32 ->
  Str.no_char "\"%char (filename_of e path) = true.
Proof.
  intros Hw. unfold filename_of. rewrite Hw.
  apply PathShape.join_no_char; [discriminate|].
  by apply StrFacts.split_by_no_char.
Qed.

Lemma X7_win32_no_backslash_witness :
  Str.no_char "\"%char (filename_of Demo.env_win "C:\r\sub\b.txt") = true.
Proof. apply X7_win32_no_backslash. reflexivity. Defined.

(** X8: on POSIX the archive name is empty exactly when the path resolves
    to [rootPath] itself. *)
Theorem X8_filename_empty_iff_root (e : Env) (path : string) :
  plat e = NodePath.Posix ->
  Forall (fun q => NodePath.clean_seg q = true) (cwd e) ->
  filename_of e path = "" <->
  NodePath.resolve (cwd e) (rootPath (args e)) = NodePath.resolve (cwd e) path.
Proof.
  intros Hp Hc. pose proof (PathShape.filename_of_eq e path Hp Hc) as H.
  destruct (NodePath.strip_common _ _) as [f t] eqn:E. destruct H as [-> Ht]. split.
  - intros Hj. apply PathShape.join_empty in Hj.
    + apply app_eq_nil in Hj as [Hf ->]. destruct f; [|discriminate].
      by apply PathShape.strip_common_nil.
    + apply Forall_app. split.
      * generalize (length f). intros n. induction n; simpl; constructor; [discriminate | done].
      * eapply Forall_impl; [exact Ht|]. intros q. apply PathShape.clean_nonempty.
  - intros Heq. rewrite Heq in E.
    rewrite <- (app_nil_r (NodePath.resolve _ path)) in E at 2.
    rewrite PathFacts.strip_common_app in E. injection E as <- <-. done.
Qed.

Lemma X8_filename_empty_iff_root_witness :
  filename_of Demo.env0 "/r/" = "".
Proof. apply X8_filename_empty_iff_root; [reflexivity | constructor | reflexivity]. Defined.

(** X9: each of [ARTIFACT_ID], [GROUP_ID] and [VERSION] that is set is
    used as given, even when it is the empty string, whatever the others
    are: [??] only replaces [undefined]. *)
Theorem X9_cli_env_set_values_kept (argv : list string) (env : gmap string string) :
  (forall ar, env !! "ARTIFACT_ID" = Some ar -> cli_artifactId (main_args argv env) = ar) /\
  (forall gr, env !! "GROUP_ID" = Some gr -> cli_groupId (main_args argv env) = gr) /\
  (forall ve, env !! "VERSION" = Some ve -> cli_version (main_args argv env) = ve).
Proof.
  unfold main_args, nullish. simpl.
  split; [|split]; intros x H; by rewrite H.
Qed.

(** Only [ARTIFACT_ID] set, to the empty string: it is kept. *)
Lemma X9_cli_env_set_values_kept_witness :
  cli_artifactId (main_args ["node"; "jar.ts"] (<["ARTIFACT_ID" := ""]> ∅)) = "".
Proof.
  destruct (X9_cli_env_set_values_kept ["node"; "jar.ts"] (<["ARTIFACT_ID" := ""]> ∅))
    as [H _].
  apply H. reflexivity.
Defined.

(** X10: with fewer than two positional arguments [targetPath] is
    [undefined], and with none [rootPath] is too; [main] passes them on
    to [jar] unchecked. *)
Theorem X10_cli_missing_positionals (argv : list string) (env : gmap string string) :
  (length argv <= 3 -> cli_targetPath (main_args argv env) = None) /\
  (length argv <= 2 -> cli_rootPath (main_args argv env) = None).
Proof.
  unfold main_args, argv_at. simpl.
  split; intros H; apply lookup_ge_None_2; lia.
Qed.

End Extras.
